(** * The formatting configuration of [.prettierrc.mjs]

    The repository ships one executable artefact, the ES module

    <<
    const config = {
      semi: true,
      singleQuote: false,
      trailingComma: "es5",
      tabWidth: 2,
      printWidth: 100,
      arrowParens: "always",
      endOfLine: "lf",
      plugins: [],
    };

    export default config;
    >>

    The development below embeds that module: JavaScript values live in a
    store of objects and arrays addressed by references, the module body is
    a computation in a state-and-exception monad, and importing the default
    export goes through the module record, which is evaluated at most once.
    The record of the specification's data model is a second, separate
    definition ([Spec.FormatPreferences]) related to the module's object by
    an explicit field correspondence. *)

From Stdlib Require Import ZArith Lia Ascii String.
From stdpp Require Import base option list strings.

Set Warnings "-register-all".

Local Open Scope string_scope.
Local Open Scope list_scope.
Local Open Scope Z_scope.

(** ** JavaScript values, objects and the store *)

Module Js.

Definition loc := nat.

(** Primitive values, references to objects of the store, and the
    intrinsic objects of the language, known by name (the functions of
    [Object.prototype] and the like).  The module only contains the decimal
    integer literals [2] and [100]; a number is kept as the integer its
    literal denotes, within the range where numbers are exact. *)
Inductive value : Type :=
| VUndefined
| VBool (b : bool)
| VNum (n : Z)
| VStr (s : string)
| VRef (l : loc)
| VBuiltin (name : string).

(** An ordinary object keeps its own string-keyed properties in insertion
    order; an array keeps its elements by index. *)
Inductive object : Type :=
| OObj (props : list (string * value))
| OArr (elems : list value).

(** The exceptions the operations below can raise. *)
Inductive exn : Type :=
| TypeError.

(** How an operation ends: normally, by an exception, or outside the
    fragment of the language this semantics covers ([Unmodelled]: nothing is
    said about what the program does then). *)
Inductive outcome (A : Type) : Type :=
| Ok (a : A)
| Throw (e : exn)
| Unmodelled.
Arguments Ok {A} a.
Arguments Throw {A} e.
Arguments Unmodelled {A}.

(** The state of the running program: the store, and the module record of
    [.prettierrc.mjs] ([None] until the module has been evaluated, then
    the completion of its evaluation, kept for every later import). *)
Record realm : Type := Realm {
  heap : list object;
  cache : option (outcome value)
}.

Definition M (A : Type) : Type := realm -> outcome A * realm.

#[global] Instance M_ret : MRet M := fun A a r => (Ok a, r).

#[global] Instance M_bind : MBind M := fun A B f m r =>
  match m r with
  | (Ok a, r') => f a r'
  | (Throw e, r') => (Throw e, r')
  | (Unmodelled, r') => (Unmodelled, r')
  end.

Definition unmodelled {A : Type} : M A := fun r => (Unmodelled, r).

Definition alloc (o : object) : M value := fun r =>
  (Ok (VRef (length (heap r))), Realm (heap r ++ [o]) (cache r)).

(** Own-property lookup, and definition of a property as an object
    literal does it: a repeated key keeps its position and takes the later
    value. *)
Fixpoint lookup_prop (k : string) (ps : list (string * value)) : option value :=
  match ps with
  | [] => None
  | (k', v) :: ps' => if String.eqb k k' then Some v else lookup_prop k ps'
  end.

Fixpoint define_prop (k : string) (v : value) (ps : list (string * value))
  : list (string * value) :=
  match ps with
  | [] => [(k, v)]
  | (k', v') :: ps' =>
      if String.eqb k k' then (k', v) :: ps' else (k', v') :: define_prop k v ps'
  end.

Definition own_keys (o : object) : list string :=
  match o with
  | OObj ps => map fst ps
  | OArr _ => []
  end.

(** The properties every ordinary object inherits from
    [Object.prototype]. *)
Definition object_prototype_names : list string :=
  [ "constructor"; "__defineGetter__"; "__defineSetter__"; "hasOwnProperty";
    "__lookupGetter__"; "__lookupSetter__"; "isPrototypeOf";
    "propertyIsEnumerable"; "toString"; "valueOf"; "__proto__";
    "toLocaleString" ].

(** What [Object.prototype] supplies for [k]: the constructor [Object],
    the prototype itself for [__proto__], one of its functions, or
    nothing. *)
Definition object_prototype_get (k : string) : value :=
  if String.eqb k "constructor" then VBuiltin "Object"
  else if String.eqb k "__proto__" then VBuiltin "Object.prototype"
  else if existsb (String.eqb k) object_prototype_names
  then VBuiltin ("Object.prototype." +:+ k)
  else VUndefined.

(** [o.k]: reading a property of [undefined] throws; an object created by
    a literal answers with its own property, else with what it inherits
    from [Object.prototype], else with [undefined]; an array answers for
    [length].  Properties of primitives, of intrinsic objects and the other
    properties of arrays are not covered. *)
Definition get (v : value) (k : string) : M value := fun r =>
  match v with
  | VUndefined => (Throw TypeError, r)
  | VRef l =>
      match heap r !! l with
      | Some (OObj ps) =>
          (Ok (match lookup_prop k ps with
               | Some v => v
               | None => object_prototype_get k
               end), r)
      | Some (OArr vs) =>
          if String.eqb k "length" then (Ok (VNum (Z.of_nat (length vs))), r)
          else (Unmodelled, r)
      | None => (Unmodelled, r)
      end
  | _ => (Unmodelled, r)
  end.

(** [a[i]] on an array: the element, or [undefined] past the end. *)
Definition get_index (v : value) (i : nat) : M value := fun r =>
  match v with
  | VUndefined => (Throw TypeError, r)
  | VRef l =>
      match heap r !! l with
      | Some (OArr vs) => (Ok (default VUndefined (vs !! i)), r)
      | _ => (Unmodelled, r)
      end
  | _ => (Unmodelled, r)
  end.

(** [a.push(x)]: the array object is updated in place, so every holder of
    the reference sees the new element.  On a value that has no [push] the
    call throws. *)
Definition array_push (a x : value) : M unit := fun r =>
  match a with
  | VRef l =>
      match heap r !! l with
      | Some (OArr vs) =>
          (Ok tt, Realm (<[l := OArr (vs ++ [x])]> (heap r)) (cache r))
      | Some (OObj ps) =>
          match lookup_prop "push" ps with
          | Some (VBuiltin _) => (Unmodelled, r)
          | _ => (Throw TypeError, r)
          end
      | None => (Unmodelled, r)
      end
  | VBuiltin _ => (Unmodelled, r)
  | _ => (Throw TypeError, r)
  end.

(** *** Literal expressions *)

Inductive lit : Type :=
| LBool (b : bool)
| LNum (n : Z)
| LStr (s : string)
| LArr (elems : list lit)
| LObj (props : list (string * lit)).

(** Integers are exact from 0 to 2^53. *)
Definition exact_number (n : Z) : bool :=
  (0 <=? n) && (n <=? 9007199254740992).

(** Property names an object literal treats apart: [__proto__] sets the
    prototype, and names that start with a digit may be array indices,
    which are kept before the other properties. *)
Definition digits : list ascii :=
  [ "0"; "1"; "2"; "3"; "4"; "5"; "6"; "7"; "8"; "9" ]%char.

Definition special_key (k : string) : bool :=
  String.eqb k "__proto__"
  || match k with
     | EmptyString => false
     | String c _ => existsb (Ascii.eqb c) digits
     end.

(** Evaluation of a literal: elements and property values are evaluated
    left to right and the array or object is allocated with them.  (An
    engine creates the object before it fills it; a program cannot tell,
    references being opaque.)  Numbers out of the exact range and the
    special property names are not covered. *)
Fixpoint eval_lit (e : lit) : M value :=
  match e with
  | LBool b => mret (VBool b)
  | LNum n => if exact_number n then mret (VNum n) else unmodelled
  | LStr s => mret (VStr s)
  | LArr es =>
      vs ← (fix elems (es : list lit) : M (list value) :=
              match es with
              | [] => mret []
              | e :: es' => v ← eval_lit e; vs ← elems es'; mret (v :: vs)
              end) es;
      alloc (OArr vs)
  | LObj ps =>
      qs ← (fix props (ps : list (string * lit)) (acc : list (string * value))
              : M (list (string * value)) :=
              match ps with
              | [] => mret acc
              | (k, e) :: ps' =>
                  if special_key k then unmodelled
                  else v ← eval_lit e; props ps' (define_prop k v acc)
              end) ps [];
      alloc (OObj qs)
  end.

(** Reading a value back as a tree, following references.  The store may
    hold cycles, so the depth is bounded by [fuel]; [undefined],
    intrinsic objects and dangling references have no literal form. *)
Fixpoint snapshot (fuel : nat) (h : list object) (v : value) : option lit :=
  match v with
  | VUndefined => None
  | VBool b => Some (LBool b)
  | VNum n => Some (LNum n)
  | VStr s => Some (LStr s)
  | VBuiltin _ => None
  | VRef l =>
      match fuel with
      | O => None
      | S fuel' =>
          match h !! l with
          | Some (OArr vs) => LArr <$> mapM (snapshot fuel' h) vs
          | Some (OObj ps) =>
              LObj <$> mapM (fun p => pair (fst p) <$> snapshot fuel' h (snd p)) ps
          | None => None
          end
      end
  end.

End Js.

Import Js.

(** ** The module [.prettierrc.mjs] *)

Module Prettierrc.

(** The object literal of lines 2 to 11. *)
Definition config_literal : lit :=
  LObj [ ("semi", LBool true);
         ("singleQuote", LBool false);
         ("trailingComma", LStr "es5");
         ("tabWidth", LNum 2);
         ("printWidth", LNum 100);
         ("arrowParens", LStr "always");
         ("endOfLine", LStr "lf");
         ("plugins", LArr []) ].

(** The module body: [const config = {...}; export default config;].  Its
    completion value is the default export. *)
Definition module_body : M value :=
  config ← eval_lit config_literal;
  mret config.

(** [import config from "./.prettierrc.mjs"]: the module is evaluated on
    the first import only; its completion, normal or abrupt, is recorded
    and handed to every later import. *)
Definition import_default : M value := fun r =>
  match cache r with
  | Some res => (res, r)
  | None =>
      let '(res, r') := module_body r in
      (res, Realm (heap r') (Some res))
  end.

End Prettierrc.

Import Prettierrc.

(** ** Executions *)

(** The environment the module is loaded into: whatever other modules have
    put in the store before, with this module not yet evaluated. *)
Definition fresh (h0 : list object) : realm := Realm h0 None.

(** The state after [n] imports. *)
Fixpoint after_imports (n : nat) (r : realm) : realm :=
  match n with
  | O => r
  | S n' => after_imports n' (snd (import_default r))
  end.

(** The completion of the import that follows [n] earlier ones. *)
Definition nth_import (n : nat) (r : realm) : outcome value :=
  fst (import_default (after_imports n r)).

(** What a consumer of the module does with it: import it again, read a
    property of the configuration, read an element of [plugins]. *)
Inductive action : Type :=
| Load
| ReadField (k : string)
| ReadPlugin (i : nat).

Definition perform (a : action) : M value :=
  match a with
  | Load => import_default
  | ReadField k => config ← import_default; get config k
  | ReadPlugin i =>
      config ← import_default; plugins ← get config "plugins"; get_index plugins i
  end.

Fixpoint run (t : list action) (r : realm) : list (outcome value) * realm :=
  match t with
  | [] => ([], r)
  | a :: t' =>
      let '(o, r1) := perform a r in
      let '(os, r2) := run t' r1 in
      (o :: os, r2)
  end.

(** A test harness appending a plugin identifier:
    [config.plugins.push(id)]. *)
Definition append_plugin (id : string) : M unit :=
  config ← import_default;
  plugins ← get config "plugins";
  array_push plugins (VStr id).

Fixpoint append_plugins (ids : list string) : M unit :=
  match ids with
  | [] => mret tt
  | id :: ids' => _ ← append_plugin id; append_plugins ids'
  end.

(** The configuration as a consumer sees it in state [r]: the tree read
    through the reference the loader returns. *)
Definition observe (r : realm) : option lit :=
  match import_default r with
  | (Ok v, r') => snapshot 2 (heap r') v
  | _ => None
  end.


(** ** The data model of the specification *)

Module Spec.

Inductive QuoteStyle : Type := QuoteSingle | QuoteDouble.
Inductive TrailingComma : Type := CommaNone | CommaEs5 | CommaAll.
Inductive ArrowParens : Type := ParensAlways | ParensAvoid.
Inductive LineEnding : Type := EolLf | EolCrlf | EolCr | EolAuto.

#[global] Instance QuoteStyle_eq_dec : EqDecision QuoteStyle.
Proof. solve_decision. Defined.
#[global] Instance TrailingComma_eq_dec : EqDecision TrailingComma.
Proof. solve_decision. Defined.
#[global] Instance ArrowParens_eq_dec : EqDecision ArrowParens.
Proof. solve_decision. Defined.
#[global] Instance LineEnding_eq_dec : EqDecision LineEnding.
Proof. solve_decision. Defined.

(** The record [FormatPreferences] with the eight fields of the data
    model, under the specification's names. *)
Record FormatPreferences : Type := {
  statementTerminator : bool;
  quoteStyle : QuoteStyle;
  trailingComma : TrailingComma;
  indentWidth : Z;
  maxLineWidth : Z;
  arrowParensPolicy : ArrowParens;
  lineEnding : LineEnding;
  plugins : list string
}.

(** The literal values the specification gives for [load()]. *)
Definition expected : FormatPreferences := {|
  statementTerminator := true;
  quoteStyle := QuoteDouble;
  trailingComma := CommaEs5;
  indentWidth := 2;
  maxLineWidth := 100;
  arrowParensPolicy := ParensAlways;
  lineEnding := EolLf;
  plugins := []
|}.

Definition with_plugins (p : FormatPreferences) (ids : list string)
  : FormatPreferences := {|
  statementTerminator := statementTerminator p;
  quoteStyle := quoteStyle p;
  trailingComma := trailingComma p;
  indentWidth := indentWidth p;
  maxLineWidth := maxLineWidth p;
  arrowParensPolicy := arrowParensPolicy p;
  lineEnding := lineEnding p;
  plugins := ids
|}.

End Spec.

Import Spec.

(** ** The correspondence between the module's object and the record

    The module names its properties as the formatter does: [semi],
    [singleQuote], [tabWidth], [printWidth], [arrowParens], [endOfLine].
    [view] reads an object under those names as a [FormatPreferences];
    [unview] writes one back. *)

Definition field (k : string) (e : lit) : option lit :=
  match e with
  | LObj ps => snd <$> List.find (fun p => String.eqb k (fst p)) ps
  | _ => None
  end.

Definition as_bool (e : lit) : option bool :=
  match e with LBool b => Some b | _ => None end.

Definition as_num (e : lit) : option Z :=
  match e with LNum n => Some n | _ => None end.

Definition as_str (e : lit) : option string :=
  match e with LStr s => Some s | _ => None end.

Definition as_strs (e : lit) : option (list string) :=
  match e with LArr es => mapM as_str es | _ => None end.

Definition quote_of_singleQuote (b : bool) : QuoteStyle :=
  if b then QuoteSingle else QuoteDouble.

Definition singleQuote_of_quote (q : QuoteStyle) : bool :=
  match q with QuoteSingle => true | QuoteDouble => false end.

Definition comma_of_string (s : string) : option TrailingComma :=
  if String.eqb s "none" then Some CommaNone
  else if String.eqb s "es5" then Some CommaEs5
  else if String.eqb s "all" then Some CommaAll
  else None.

Definition string_of_comma (c : TrailingComma) : string :=
  match c with CommaNone => "none" | CommaEs5 => "es5" | CommaAll => "all" end.

Definition parens_of_string (s : string) : option ArrowParens :=
  if String.eqb s "always" then Some ParensAlways
  else if String.eqb s "avoid" then Some ParensAvoid
  else None.

Definition string_of_parens (a : ArrowParens) : string :=
  match a with ParensAlways => "always" | ParensAvoid => "avoid" end.

Definition eol_of_string (s : string) : option LineEnding :=
  if String.eqb s "lf" then Some EolLf
  else if String.eqb s "crlf" then Some EolCrlf
  else if String.eqb s "cr" then Some EolCr
  else if String.eqb s "auto" then Some EolAuto
  else None.

Definition string_of_eol (l : LineEnding) : string :=
  match l with
  | EolLf => "lf" | EolCrlf => "crlf" | EolCr => "cr" | EolAuto => "auto"
  end.

Definition view (e : lit) : option FormatPreferences :=
  semi ← field "semi" e ≫= as_bool;
  singleQuote ← field "singleQuote" e ≫= as_bool;
  comma ← (field "trailingComma" e ≫= as_str) ≫= comma_of_string;
  tabWidth ← field "tabWidth" e ≫= as_num;
  printWidth ← field "printWidth" e ≫= as_num;
  parens ← (field "arrowParens" e ≫= as_str) ≫= parens_of_string;
  eol ← (field "endOfLine" e ≫= as_str) ≫= eol_of_string;
  ids ← field "plugins" e ≫= as_strs;
  Some {| statementTerminator := semi;
          quoteStyle := quote_of_singleQuote singleQuote;
          trailingComma := comma;
          indentWidth := tabWidth;
          maxLineWidth := printWidth;
          arrowParensPolicy := parens;
          lineEnding := eol;
          plugins := ids |}.

Definition unview (p : FormatPreferences) : lit :=
  LObj [ ("semi", LBool (statementTerminator p));
         ("singleQuote", LBool (singleQuote_of_quote (quoteStyle p)));
         ("trailingComma", LStr (string_of_comma (trailingComma p)));
         ("tabWidth", LNum (indentWidth p));
         ("printWidth", LNum (maxLineWidth p));
         ("arrowParens", LStr (string_of_parens (arrowParensPolicy p)));
         ("endOfLine", LStr (string_of_eol (lineEnding p)));
         ("plugins", LArr (LStr <$> plugins p)) ].

(** Evaluating a literal in the empty store and reading it back. *)
Definition observe' (e : lit) : option lit :=
  match eval_lit e (fresh []) with
  | (Ok v, r) => snapshot 3 (heap r) v
  | _ => None
  end.

(** [config.plugins.length], as a consumer reads it. *)
Definition plugin_count : M value :=
  config ← import_default;
  plugins ← get config "plugins";
  get plugins "length".

(** ** The store the module builds *)

(** The object the literal evaluates to, its [plugins] property referring
    to the array at [p]. *)
Definition config_object (p : loc) : object :=
  OObj [ ("semi", VBool true);
         ("singleQuote", VBool false);
         ("trailingComma", VStr "es5");
         ("tabWidth", VNum 2);
         ("printWidth", VNum 100);
         ("arrowParens", VStr "always");
         ("endOfLine", VStr "lf");
         ("plugins", VRef p) ].

Definition config_ref (h0 : list object) : value := VRef (S (length h0)).

(** What reading property [k] of an object with own properties [ps]
    gives. *)
Definition own_or_inherited (k : string) (ps : list (string * value)) : value :=
  match lookup_prop k ps with
  | Some v => v
  | None => object_prototype_get k
  end.

(** The state once the module has been evaluated on top of [h0], with the
    identifiers [ids] in the [plugins] array. *)
Definition store_with (h0 : list object) (ids : list string) : realm :=
  Realm (h0 ++ [OArr (VStr <$> ids); config_object (length h0)])
        (Some (Ok (config_ref h0))).

Definition created (h0 : list object) : realm := snd (import_default (fresh h0)).

(** A consumer reading property [k] of the configuration in state [r]. *)
Definition read (k : string) (r : realm) : outcome value :=
  fst (perform (ReadField k) r).

Definition config_keys : list string :=
  [ "semi"; "singleQuote"; "trailingComma"; "tabWidth"; "printWidth";
    "arrowParens"; "endOfLine"; "plugins" ].

Definition lit_keys (e : lit) : list string :=
  match e with
  | LObj ps => map fst ps
  | _ => []
  end.

Section Store.

Variable h0 : list object.

Lemma lookup_plugins_array (a b : object) (tl : list object) :
  (h0 ++ a :: b :: tl) !! length h0 = Some a.
Proof. by apply list_lookup_middle. Qed.

Lemma lookup_config_object (a b : object) (tl : list object) :
  (h0 ++ a :: b :: tl) !! S (length h0) = Some b.
Proof.
  rewrite lookup_app_r by lia.
  replace (S (length h0) - length h0)%nat with 1%nat by lia. reflexivity.
Qed.

Lemma eval_config (c : option (outcome value)) :
  eval_lit config_literal (Realm h0 c)
  = (Ok (config_ref h0), Realm (h0 ++ [OArr []; config_object (length h0)]) c).
Proof.
  unfold config_literal, config_ref, config_object. cbn.
  unfold mbind, mret, M_bind, M_ret, alloc. cbn.
  rewrite length_app, <- app_assoc. cbn.
  replace (length h0 + 1)%nat with (S (length h0)) by lia. reflexivity.
Qed.

Lemma import_fresh :
  import_default (fresh h0) = (Ok (config_ref h0), store_with h0 []).
Proof.
  unfold import_default, fresh, module_body. cbn [cache].
  unfold mbind, M_bind. rewrite eval_config. reflexivity.
Qed.

Lemma import_store (ids : list string) :
  import_default (store_with h0 ids) = (Ok (config_ref h0), store_with h0 ids).
Proof. reflexivity. Qed.

Lemma created_store : created h0 = store_with h0 [].
Proof. unfold created. by rewrite import_fresh. Qed.

Lemma after_imports_store (n : nat) (ids : list string) :
  after_imports n (store_with h0 ids) = store_with h0 ids.
Proof. induction n as [|n IH]; [done|]. cbn [after_imports]. by rewrite import_store. Qed.

Lemma after_imports_fresh (n : nat) :
  after_imports (S n) (fresh h0) = store_with h0 [].
Proof. cbn [after_imports]. rewrite import_fresh. apply after_imports_store. Qed.

Lemma import_after (n : nat) :
  import_default (after_imports n (fresh h0)) = (Ok (config_ref h0), store_with h0 []).
Proof.
  destruct n as [|n]; [apply import_fresh|].
  rewrite after_imports_fresh. apply import_store.
Qed.

Lemma get_store (ids : list string) (k : string) :
  get (config_ref h0) k (store_with h0 ids)
  = (Ok (own_or_inherited k
           [ ("semi", VBool true); ("singleQuote", VBool false);
             ("trailingComma", VStr "es5"); ("tabWidth", VNum 2);
             ("printWidth", VNum 100); ("arrowParens", VStr "always");
             ("endOfLine", VStr "lf"); ("plugins", VRef (length h0)) ]),
     store_with h0 ids).
Proof.
  unfold get, config_ref, store_with. cbn [heap].
  by rewrite lookup_config_object.
Qed.

Lemma get_plugins (ids : list string) :
  get (config_ref h0) "plugins" (store_with h0 ids)
  = (Ok (VRef (length h0)), store_with h0 ids).
Proof. by rewrite get_store. Qed.

Lemma get_index_plugins (ids : list string) (i : nat) :
  get_index (VRef (length h0)) i (store_with h0 ids)
  = (Ok (default VUndefined ((VStr <$> ids) !! i)), store_with h0 ids).
Proof.
  unfold get_index, store_with. cbn [heap]. by rewrite lookup_plugins_array.
Qed.

Lemma perform_store (ids : list string) (a : action) :
  snd (perform a (store_with h0 ids)) = store_with h0 ids.
Proof.
  destruct a as [|k|i]; [done| |].
  - cbn [perform]. unfold mbind, M_bind. rewrite import_store, get_store. done.
  - cbn [perform]. unfold mbind, M_bind.
    by rewrite import_store, get_plugins, get_index_plugins.
Qed.

Lemma run_store (ids : list string) (t : list action) :
  snd (run t (store_with h0 ids)) = store_with h0 ids.
Proof.
  induction t as [|a t IH]; [done|]. cbn [run].
  pose proof (perform_store ids a) as Ha.
  destruct (perform a (store_with h0 ids)) as [o r1]. cbn in Ha. subst r1.
  destruct (run t (store_with h0 ids)) as [os r2]. exact IH.
Qed.

Lemma perform_fresh (a : action) :
  snd (perform a (fresh h0)) = store_with h0 [].
Proof.
  destruct a as [|k|i]; cbn [perform].
  - by rewrite import_fresh.
  - unfold mbind, M_bind. rewrite import_fresh, get_store. done.
  - unfold mbind, M_bind.
    by rewrite import_fresh, get_plugins, get_index_plugins.
Qed.

Lemma read_store (ids : list string) (k : string) :
  read k (store_with h0 ids) = fst (get (config_ref h0) k (store_with h0 ids)).
Proof. unfold read. cbn [perform]. unfold mbind, M_bind. by rewrite import_store. Qed.

Lemma read_fresh (k : string) :
  read k (fresh h0) = read k (store_with h0 []).
Proof.
  rewrite read_store. unfold read. cbn [perform]. unfold mbind, M_bind.
  by rewrite import_fresh.
Qed.

Lemma append_plugin_store (ids : list string) (id : string) :
  append_plugin id (store_with h0 ids) = (Ok tt, store_with h0 (ids ++ [id])).
Proof.
  unfold append_plugin, mbind, M_bind. rewrite import_store, get_plugins.
  unfold array_push, store_with. cbn [heap cache].
  rewrite lookup_plugins_array.
  rewrite insert_app_r_alt by lia.
  replace (length h0 - length h0)%nat with 0%nat by lia.
  cbn. by rewrite fmap_app.
Qed.

Lemma append_plugins_store (ids more : list string) :
  append_plugins more (store_with h0 ids) = (Ok tt, store_with h0 (ids ++ more)).
Proof.
  revert ids. induction more as [|id more IH]; intros ids.
  - cbn. by rewrite app_nil_r.
  - cbn [append_plugins]. unfold mbind, M_bind at 1.
    rewrite append_plugin_store, IH. by rewrite <- app_assoc.
Qed.

Lemma append_plugin_fresh (id : string) :
  append_plugin id (fresh h0) = (Ok tt, store_with h0 [id]).
Proof.
  transitivity (append_plugin id (store_with h0 [])).
  - unfold append_plugin, mbind, M_bind. by rewrite import_fresh, import_store.
  - apply (append_plugin_store [] id).
Qed.

Lemma mapM_strs (f : value -> option lit) (ids : list string) :
  (forall s, f (VStr s) = Some (LStr s)) ->
  mapM f (VStr <$> ids) = Some (LStr <$> ids).
Proof.
  intros Hf. induction ids as [|id ids IH]; [done|].
  rewrite !fmap_cons. cbn [mapM]. by rewrite IH, Hf.
Qed.

(** Depth two is what the configuration needs; more changes nothing. *)
Lemma snapshot_config_fuel
    (f : nat) (h : list object) (l p : loc) (ids : list string) :
  h !! l = Some (config_object p) ->
  h !! p = Some (OArr (VStr <$> ids)) ->
  snapshot (S (S f)) h (VRef l) = Some (unview (with_plugins expected ids)).
Proof.
  intros Hl Hp. cbn [snapshot]. rewrite Hl. unfold config_object.
  cbn [mapM fst snd snapshot]. rewrite Hp.
  rewrite mapM_strs; [done|]. intros s. by destruct f.
Qed.

Lemma snapshot_config (h : list object) (l p : loc) (ids : list string) :
  h !! l = Some (config_object p) ->
  h !! p = Some (OArr (VStr <$> ids)) ->
  snapshot 2 h (VRef l) = Some (unview (with_plugins expected ids)).
Proof. apply (snapshot_config_fuel 0). Qed.

Lemma observe_store (ids : list string) :
  observe (store_with h0 ids) = Some (unview (with_plugins expected ids)).
Proof.
  unfold observe. rewrite import_store. unfold config_ref, store_with.
  cbn [heap]. apply (snapshot_config _ _ (length h0)).
  - apply lookup_config_object.
  - apply lookup_plugins_array.
Qed.

Lemma observe_fresh : observe (fresh h0) = Some config_literal.
Proof.
  unfold observe. rewrite import_fresh.
  change (observe (store_with h0 []) = Some config_literal).
  by rewrite observe_store.
Qed.

End Store.

Lemma mapM_as_str (ids : list string) : mapM as_str (LStr <$> ids) = Some ids.
Proof.
  induction ids as [|id ids IH]; [done|].
  rewrite fmap_cons. cbn [mapM]. by rewrite IH.
Qed.

(** The correspondence loses nothing: every record is read back from the
    object that stands for it. *)
Lemma view_unview (p : FormatPreferences) : view (unview p) = Some p.
Proof.
  destruct p as [semi q c iw mw a e ids].
  unfold view, unview. cbn.
  rewrite (mapM_as_str ids).
  by destruct q, c, a, e.
Qed.

(** ** Own properties *)

Lemma lookup_prop_Some (k : string) (ps : list (string * value)) (v : value) :
  lookup_prop k ps = Some v -> (k, v) ∈ ps.
Proof.
  induction ps as [|[k' v'] ps IH]; [done|]. cbn [lookup_prop].
  destruct (String.eqb_spec k k') as [->|Hne].
  - intros [= ->]. apply list_elem_of_here.
  - intros H. apply list_elem_of_further. by apply IH.
Qed.

Lemma lookup_prop_None (k : string) (ps : list (string * value)) :
  lookup_prop k ps = None <-> k ∉ map fst ps.
Proof.
  induction ps as [|[k' v'] ps IH]; cbn [lookup_prop map fst].
  - split; [intros _ H; by apply not_elem_of_nil in H|done].
  - rewrite not_elem_of_cons.
    destruct (String.eqb_spec k k') as [->|Hne]; [|tauto].
    split; [done|]. by intros [? _].
Qed.

Lemma read_config (h0 : list object) (ids : list string) (k : string) :
  read k (store_with h0 ids)
  = Ok (own_or_inherited k
          [ ("semi", VBool true); ("singleQuote", VBool false);
            ("trailingComma", VStr "es5"); ("tabWidth", VNum 2);
            ("printWidth", VNum 100); ("arrowParens", VStr "always");
            ("endOfLine", VStr "lf"); ("plugins", VRef (length h0)) ]).
Proof. by rewrite read_store, get_store. Qed.

Lemma observe_after (h0 : list object) (n : nat) :
  observe (after_imports n (fresh h0)) = Some config_literal.
Proof.
  destruct n as [|n]; [apply observe_fresh|].
  rewrite after_imports_fresh. apply (observe_store h0 []).
Qed.

Lemma snapshot_store (h0 : list object) (ids : list string) :
  snapshot 2 (heap (store_with h0 ids)) (config_ref h0)
  = Some (unview (with_plugins expected ids)).
Proof.
  pose proof (observe_store h0 ids) as H. unfold observe in H.
  by rewrite import_store in H.
Qed.

Lemma object_prototype_get_cases (k : string) :
  object_prototype_get k = VUndefined
  \/ exists name, object_prototype_get k = VBuiltin name.
Proof. unfold object_prototype_get. repeat case_match; eauto. Qed.

(** ** The module on concrete stores *)

Example import_into_empty_store :
  import_default (fresh [])
  = (Ok (VRef 1%nat),
     Realm [OArr []; config_object 0%nat] (Some (Ok (VRef 1%nat)))).
Proof. reflexivity. Qed.

Example import_into_used_store :
  fst (import_default (fresh [OObj [("x", VNum 1)]; OArr [VRef 0%nat]]))
  = Ok (VRef 3%nat).
Proof. reflexivity. Qed.

Example consumer_session :
  fst (run [Load; ReadField "semi"; ReadField "printWidth"; ReadPlugin 0%nat;
            ReadField "quoteStyle"] (fresh []))
  = [ Ok (VRef 1%nat); Ok (VBool true); Ok (VNum 100); Ok VUndefined;
      Ok VUndefined ].
Proof. reflexivity. Qed.

Example inherited_reads :
  read "toString" (created []) = Ok (VBuiltin "Object.prototype.toString")
  /\ read "constructor" (created []) = Ok (VBuiltin "Object")
  /\ read "quoteStyle" (created []) = Ok VUndefined.
Proof. repeat split. Qed.

Example harness_appends :
  observe (snd (append_plugins ["a"; "b"] (created [])))
  = Some (unview (with_plugins expected ["a"; "b"])).
Proof. reflexivity. Qed.

(** * The claims *)

(** C1.  Loading the module in any environment returns the configuration
    whose fields, read under the field correspondence, are exactly
    statementTerminator = true, quoteStyle = double, trailingComma = es5,
    indentWidth = 2, maxLineWidth = 100, arrowParensPolicy = always,
    lineEnding = lf and plugins = the empty sequence; and the object holds
    nothing beyond that record. *)
Theorem load_returns_fixed_record (h0 : list object) :
  exists v : value,
    import_default (fresh h0) = (Ok v, created h0)
    /\ snapshot 2 (heap (created h0)) v = Some (unview expected)
    /\ snapshot 2 (heap (created h0)) v ≫= view = Some expected.
Proof.
  exists (config_ref h0). rewrite created_store, import_fresh.
  assert (snapshot 2 (heap (store_with h0 [])) (config_ref h0)
          = Some (unview expected)) as Hs.
  { pose proof (observe_store h0 []) as H. unfold observe in H.
    by rewrite import_store in H. }
  rewrite Hs. split; [done|]. split; [done|].
  cbn [mbind option_bind]. apply view_unview.
Qed.

(** C2.  Any two invocations of the loader, whatever their position in the
    sequence of calls and whatever the environment the module was loaded
    into, return configurations that are equal field for field; within one
    run they return the very same reference, also after a harness has
    appended plugins. *)
Theorem load_deterministic
    (h1 h2 : list object) (i j : nat) (ids : list string) :
  observe (after_imports i (fresh h1)) = Some config_literal
  /\ observe (after_imports i (fresh h1)) = observe (after_imports j (fresh h2))
  /\ nth_import i (fresh h1) = nth_import j (fresh h1)
  /\ nth_import i (snd (append_plugins ids (created h1))) = nth_import j (fresh h1).
Proof.
  rewrite !observe_after. split; [done|]. split; [done|].
  unfold nth_import. rewrite !import_after. split; [done|].
  rewrite created_store, (append_plugins_store h1 [] ids). cbn [snd app].
  by rewrite after_imports_store, import_store.
Qed.

(** C3.  In the loaded configuration the properties [tabWidth]
    (indentWidth) and [printWidth] (maxLineWidth) hold integers that are
    strictly positive. *)
Theorem widths_strictly_positive (h0 : list object) :
  exists tw pw : Z,
    read "tabWidth" (fresh h0) = Ok (VNum tw)
    /\ read "printWidth" (fresh h0) = Ok (VNum pw)
    /\ 0 < tw /\ 0 < pw
    /\ (indentWidth <$> (observe (fresh h0) ≫= view)) = Some tw
    /\ (maxLineWidth <$> (observe (fresh h0) ≫= view)) = Some pw.
Proof.
  exists 2, 100. rewrite !read_fresh, !read_config, observe_fresh.
  repeat split; reflexivity.
Qed.

(** C4.  The loader never fails and always hands out the configuration:
    the module body completes normally in every state with a reference to
    an object that reads as the literal; every invocation of the loader,
    first or later, in any environment, returns such a reference and not
    an exception; so it does after a harness has appended plugins, the
    object then showing them. *)
Theorem load_infallible :
  (forall r : realm, exists v r',
      module_body r = (Ok v, r')
      /\ snapshot 2 (heap r') v = Some config_literal)
  /\ (forall (h0 : list object) (n : nat), exists v,
        nth_import n (fresh h0) = Ok v
        /\ snapshot 2 (heap (after_imports (S n) (fresh h0))) v
           = Some config_literal)
  /\ (forall (h0 : list object) (ids : list string) (n : nat), exists v,
        nth_import n (snd (append_plugins ids (created h0))) = Ok v
        /\ snapshot 2 (heap (snd (append_plugins ids (created h0)))) v
           = Some (unview (with_plugins expected ids))).
Proof.
  split; [|split].
  - intros [h c]. unfold module_body, mbind, M_bind. rewrite eval_config.
    eexists _, _. split; [reflexivity|]. cbn [heap]. unfold config_ref.
    apply (snapshot_config _ _ (length h) []).
    + apply lookup_config_object.
    + apply lookup_plugins_array.
  - intros h0 n. exists (config_ref h0). unfold nth_import.
    rewrite import_after, after_imports_fresh. split; [done|].
    apply (snapshot_store h0 []).
  - intros h0 ids n. exists (config_ref h0).
    rewrite created_store, (append_plugins_store h0 [] ids). cbn [snd app].
    unfold nth_import. rewrite after_imports_store, import_store.
    split; [done|]. apply snapshot_store.
Qed.

(** C5.  The exported object has exactly eight own properties, the ones
    that stand for the eight fields of the data model, each once; each of
    them reads as a value of its own, and no other name does: what else a
    read returns is what every object inherits from [Object.prototype], or
    [undefined]; the record read from the object is total. *)
Theorem config_has_exactly_eight_fields (h0 : list object) :
  exists (l : loc) (o : object),
    import_default (fresh h0) = (Ok (VRef l), created h0)
    /\ heap (created h0) !! l = Some o
    /\ own_keys o = config_keys
    /\ length (own_keys o) = 8%nat
    /\ NoDup (own_keys o)
    /\ (forall k : string,
          k ∈ own_keys o <->
          exists v, read k (created h0) = Ok v
                    /\ v <> VUndefined /\ v <> object_prototype_get k)
    /\ (forall k : string,
          k ∉ own_keys o -> read k (created h0) = Ok (object_prototype_get k))
    /\ (forall p : FormatPreferences, lit_keys (unview p) = own_keys o)
    /\ is_Some (observe (created h0) ≫= view).
Proof.
  exists (S (length h0)), (config_object (length h0)).
  rewrite created_store, import_fresh.
  split; [done|]. split; [apply lookup_config_object|].
  split; [done|]. split; [done|].
  split; [apply (bool_decide_unpack _); by vm_compute|].
  split; [|split; [|split; [done|]]].
  - intros k. rewrite read_config. unfold own_or_inherited.
    cbn [own_keys config_object]. split.
    + intros Hk.
      destruct (lookup_prop k _) as [v|] eqn:Hv.
      * exists v. split; [done|].
        apply lookup_prop_Some in Hv.
        rewrite !elem_of_cons in Hv. rewrite elem_of_nil in Hv.
        destruct (object_prototype_get_cases k) as [Hu|[name Hn]].
        -- rewrite Hu.
           repeat (destruct Hv as [Hv|Hv];
                   [injection Hv as _ ->; split; discriminate|]).
           done.
        -- rewrite Hn.
           repeat (destruct Hv as [Hv|Hv];
                   [injection Hv as _ ->; split; discriminate|]).
           done.
      * apply lookup_prop_None in Hv. done.
    + intros (v & Hv & Hne & Hni).
      destruct (lookup_prop k _) as [w|] eqn:Hw.
      * apply lookup_prop_Some in Hw.
        apply (list_elem_of_fmap_2 fst) in Hw. exact Hw.
      * injection Hv as <-. done.
  - intros k Hk. rewrite read_config. unfold own_or_inherited.
    cbn [own_keys config_object] in Hk.
    apply lookup_prop_None in Hk. by rewrite Hk.
  - rewrite observe_store. cbn [mbind option_bind]. rewrite view_unview. by eexists.
Qed.

(** C6.  The loaded configuration has no plugins; and when a harness
    appends an identifier to its [plugins] array, after any earlier
    appends, every property of the configuration object reads as before:
    the record seen afterwards differs from the one seen before in its
    plugins alone, which have the identifier at the end. *)
Theorem append_plugin_frames_other_fields
    (h0 : list object) (ids : list string) (id : string) :
  (plugins <$> (observe (created h0) ≫= view)) = Some []
  /\ (forall k : string,
        read k (snd (append_plugin id (snd (append_plugins ids (created h0)))))
        = read k (snd (append_plugins ids (created h0))))
  /\ observe (snd (append_plugins ids (created h0))) ≫= view
     = Some (with_plugins expected ids)
  /\ observe (snd (append_plugin id (snd (append_plugins ids (created h0))))) ≫= view
     = Some (with_plugins expected (ids ++ [id])).
Proof.
  rewrite created_store, (append_plugins_store h0 [] ids). cbn [snd app].
  rewrite append_plugin_store. cbn [snd].
  rewrite !observe_store. cbn [mbind option_bind]. rewrite !view_unview.
  split; [done|]. split; [|done].
  intros k. by rewrite !read_config.
Qed.



(** C9.  The enumerated properties of the configuration hold values of
    their domains: [trailingComma] is "es5", one of none, es5, all;
    [arrowParens] is "always", one of always, avoid; [endOfLine] is "lf",
    one of lf, crlf, cr, auto. *)
Theorem enum_fields_in_domain (h0 : list object) :
  exists tc ap eol : string,
    read "trailingComma" (fresh h0) = Ok (VStr tc)
    /\ read "arrowParens" (fresh h0) = Ok (VStr ap)
    /\ read "endOfLine" (fresh h0) = Ok (VStr eol)
    /\ tc ∈ ["none"; "es5"; "all"] /\ tc = "es5"
    /\ ap ∈ ["always"; "avoid"] /\ ap = "always"
    /\ eol ∈ ["lf"; "crlf"; "cr"; "auto"] /\ eol = "lf"
    /\ is_Some (comma_of_string tc)
    /\ is_Some (parens_of_string ap)
    /\ is_Some (eol_of_string eol).
Proof.
  exists "es5", "always", "lf". rewrite !read_fresh, !read_config.
  rewrite !elem_of_cons.
  repeat split; try reflexivity; try (by eexists); tauto.
Qed.

(** C10.  The object names its properties as the formatter does, not as
    the data model: [semi] is true, [singleQuote] is false and stands for
    the double quote style by negation, [tabWidth], [printWidth] and
    [endOfLine] hold the indent width, the line width and the line
    ending; no property bears a name of the data model. *)
Theorem code_field_names_and_polarity (h0 : list object) :
  read "semi" (fresh h0) = Ok (VBool true)
  /\ read "singleQuote" (fresh h0) = Ok (VBool false)
  /\ read "tabWidth" (fresh h0) = Ok (VNum 2)
  /\ read "printWidth" (fresh h0) = Ok (VNum 100)
  /\ read "endOfLine" (fresh h0) = Ok (VStr "lf")
  /\ Forall (fun k => read k (fresh h0) = Ok VUndefined)
       [ "statementTerminator"; "quoteStyle"; "indentWidth"; "maxLineWidth";
         "lineEnding"; "arrowParensPolicy" ]
  /\ (forall p : FormatPreferences,
        field "semi" (unview p) = Some (LBool (statementTerminator p))
        /\ field "singleQuote" (unview p)
           = Some (LBool (negb (bool_decide (quoteStyle p = QuoteDouble))))
        /\ field "tabWidth" (unview p) = Some (LNum (indentWidth p))
        /\ field "printWidth" (unview p) = Some (LNum (maxLineWidth p))
        /\ field "endOfLine" (unview p) = Some (LStr (string_of_eol (lineEnding p))))
  /\ quoteStyle <$> (observe (fresh h0) ≫= view) = Some QuoteDouble.
Proof.
  rewrite !read_fresh, !read_config, observe_fresh.
  repeat (split; [reflexivity|]).
  split; [|split; [|reflexivity]].
  - repeat constructor; by rewrite read_fresh, read_config.
  - intros [semi q c iw mw a e ids]. by destruct q.
Qed.

(** ** Literals with a repeated key *)

Example later_duplicate_wins :
  observe' (LObj [("a", LNum 1); ("b", LNum 2); ("a", LNum 3)])
  = Some (LObj [("a", LNum 3); ("b", LNum 2)]).
Proof. by vm_compute. Qed.

(** * Further properties of the module *)

Lemma perform_ok_store (h0 : list object) (ids : list string) (a : action) :
  exists v, fst (perform a (store_with h0 ids)) = Ok v.
Proof.
  destruct a as [|k|i]; cbn [perform]; unfold mbind, M_bind.
  - rewrite import_store. by eexists.
  - rewrite import_store, get_store. by eexists.
  - rewrite import_store, get_plugins, get_index_plugins. by eexists.
Qed.

Lemma perform_fresh_outcome (h0 : list object) (a : action) :
  fst (perform a (fresh h0)) = fst (perform a (store_with h0 [])).
Proof.
  destruct a as [|k|i]; cbn [perform]; unfold mbind, M_bind;
    by rewrite import_fresh, import_store.
Qed.

Lemma run_ok_store (h0 : list object) (ids : list string) (t : list action) :
  Forall (fun o => exists v, o = Ok v) (fst (run t (store_with h0 ids))).
Proof.
  induction t as [|a t IH]; [constructor|]. cbn [run].
  pose proof (perform_store h0 ids a) as Hs.
  pose proof (perform_ok_store h0 ids a) as Ho.
  destruct (perform a (store_with h0 ids)) as [o r1]. cbn in Hs, Ho. subst r1.
  destruct (run t (store_with h0 ids)) as [os r2]. cbn in IH |- *.
  by constructor.
Qed.

(** X1.  The default export is the object itself, neither a copy nor
    frozen: once a consumer has appended identifiers to [plugins], every
    later import, however many there are, returns the reference the first
    import returned and shows the appended plugins; importing again never
    evaluates the module anew, so the empty default does not come back. *)
Theorem shared_export_keeps_appends
    (h0 : list object) (id : string) (ids : list string) (n : nat) :
  nth_import n (snd (append_plugins (id :: ids) (created h0)))
  = nth_import 0 (fresh h0)
  /\ observe (after_imports n (snd (append_plugins (id :: ids) (created h0))))
     = Some (unview (with_plugins expected (id :: ids)))
  /\ observe (after_imports n (snd (append_plugins (id :: ids) (created h0))))
     <> observe (created h0).
Proof.
  rewrite created_store, (append_plugins_store h0 [] (id :: ids)).
  cbn [snd app]. unfold nth_import.
  rewrite after_imports_store, import_store, !observe_store.
  cbn [after_imports]. rewrite import_fresh.
  split; [done|]. split; [done|]. discriminate.
Qed.

(** X2.  Loading the module, appending plugins and reading the
    configuration never touch an object that was in the store before: it
    stays where it was, and neither the configuration nor its plugins array
    is that object. *)
Theorem store_frame
    (h0 : list object) (ids : list string) (t : list action)
    (l : loc) (o : object) :
  h0 !! l = Some o ->
  heap (snd (run t (snd (append_plugins ids (created h0))))) !! l = Some o
  /\ config_ref h0 <> VRef l
  /\ fst (get (config_ref h0) "plugins" (created h0)) <> Ok (VRef l).
Proof.
  intros Hl. pose proof (lookup_lt_Some _ _ _ Hl) as Hlt.
  rewrite created_store, (append_plugins_store h0 [] ids). cbn [snd app].
  rewrite run_store, get_plugins. unfold store_with, config_ref. cbn [heap fst].
  split; [by apply lookup_app_l_Some|].
  split; intros [= Heq]; lia.
Qed.

Lemma store_frame_witness :
  [OArr [VNum 7]] !! 0%nat = Some (OArr [VNum 7])
  /\ (heap (snd (run [Load; ReadField "semi"]
                  (snd (append_plugins ["a"] (created [OArr [VNum 7]])))))
        !! 0%nat = Some (OArr [VNum 7])
      /\ config_ref [OArr [VNum 7]] <> VRef 0%nat
      /\ fst (get (config_ref [OArr [VNum 7]]) "plugins" (created [OArr [VNum 7]]))
         <> Ok (VRef 0%nat)).
Proof.
  split; [reflexivity|].
  apply (store_frame [OArr [VNum 7]] ["a"] [Load; ReadField "semi"] 0%nat
           (OArr [VNum 7])).
  reflexivity.
Defined.

(** X3.  The plugins array is an ordered sequence: after identifiers have
    been appended, its length is their number, index [i] reads the [i]-th
    identifier appended, and an index past the end reads [undefined]. *)
Theorem plugins_are_ordered (h0 : list object) (ids : list string) (i : nat) :
  fst (plugin_count (snd (append_plugins ids (created h0))))
  = Ok (VNum (Z.of_nat (length ids)))
  /\ fst (perform (ReadPlugin i) (snd (append_plugins ids (created h0))))
     = match ids !! i with
       | Some id => Ok (VStr id)
       | None => Ok VUndefined
       end.
Proof.
  rewrite created_store, (append_plugins_store h0 [] ids). cbn [snd app].
  split.
  - unfold plugin_count, mbind, M_bind. rewrite import_store, get_plugins.
    unfold get, store_with. cbn [heap]. rewrite lookup_plugins_array.
    cbn [fst]. by rewrite length_fmap.
  - cbn [perform]. unfold mbind, M_bind.
    rewrite import_store, get_plugins, get_index_plugins. cbn [fst].
    rewrite list_lookup_fmap. by destruct (ids !! i).
Qed.

(** X4.  No action of a consumer throws or leaves the covered fragment,
    whether the module has been loaded before or not and whatever has been
    appended to [plugins]: every import, every property read and every
    plugin read, at any name and any index, completes normally. *)
Theorem consumer_reads_never_throw
    (h0 : list object) (ids : list string) (t : list action) :
  Forall (fun o => exists v, o = Ok v) (fst (run t (fresh h0)))
  /\ Forall (fun o => exists v, o = Ok v)
       (fst (run t (snd (append_plugins ids (created h0))))).
Proof.
  split.
  - destruct t as [|a t]; [constructor|]. cbn [run].
    pose proof (perform_fresh h0 a) as Hs.
    pose proof (perform_fresh_outcome h0 a) as Ho.
    pose proof (perform_ok_store h0 [] a) as Hok.
    destruct (perform a (fresh h0)) as [o r1]. cbn in Hs, Ho. subst r1.
    pose proof (run_ok_store h0 [] t) as Ht.
    destruct (run t (store_with h0 [])) as [os r2]. cbn in Ht |- *.
    constructor; [|done]. by rewrite Ho.
  - rewrite created_store, (append_plugins_store h0 [] ids). cbn [snd app].
    apply run_ok_store.
Qed.
